(** * JSNOT: path access to decoded JSON values

    A shallow embedding of [bigrep/jsnot.py].  The class [JSNOT] wraps a
    decoded JSON value and reads nested properties through one path
    string whose keys are separated by backslashes.

    - Python strings are [string]; a [dict] with string keys is a
      [gmap string value].
    - A call that may raise is a [result]: [Ok] for a returned object,
      [Raise] for the exception that leaves the call.
    - [re.split] is modelled by a small matcher for the regular
      expression constructs the delimiter pattern is made of.
    - [json.loads] belongs to the Python standard library, not to the
      module; the methods take the decoder as a section variable.  A
      decoder answers with a value or with the exception it raises:
      [JSONDecodeError], a plain [ValueError] or [RecursionError]. *)

From Stdlib Require Import String Ascii ZArith List Bool Lia DecimalString.
From Stdlib Require Import Floats.SpecFloat.
From stdpp Require Import gmap strings.

#[local] Set Warnings "-register-all".

(** ** Exceptions and results *)

(** The built-in classes a decoded JSON value can be an instance of,
    and [type], the class of classes. *)
Inductive pyclass : Type :=
| py_object
| py_NoneType
| py_bool
| py_int
| py_float
| py_str
| py_list
| py_dict
| py_type.

(** The second argument of [isinstance]: a class or a tuple of such. *)
Inductive classinfo : Type :=
| Class (c : pyclass)
| Tuple (cs : list classinfo).

(** Decoded JSON data, as [json.loads] builds it. *)
Inductive value : Type :=
| VNull
| VBool (b : bool)
| VInt (z : Z)
| VFloat (f : spec_float)
| VStr (s : string)
| VList (l : list value)
| VDict (d : gmap string value).

(** What [cast] may hand back: a value or a class object. *)
Inductive pyobject : Type :=
| OVal (v : value)
| OType (c : pyclass).

(** The three ways a subscription [prev[cur]] or an [isinstance] test
    ends in a [TypeError]. *)
Inductive type_error : Type :=
| NotSubscriptable (c : pyclass)
| BadIndices (c : pyclass)
| Expected (k : classinfo).

Inductive exn : Type :=
| KeyError (key : string)
| TypeError (why : type_error)
| JSONDecodeError (doc : string)
| ValueError (arg : pyobject)
| RecursionError.

Inductive result (A : Type) : Type :=
| Ok (a : A)
| Raise (e : exn).

Arguments Ok {A} a.
Arguments Raise {A} e.

(** Sequencing: an exception of the first call leaves the second
    uncalled.  Written [x ← m; k] below. *)
#[global] Instance result_bind : MBind result :=
  fun A B (k : A -> result B) (m : result A) =>
    match m with
    | Ok a => k a
    | Raise e => Raise e
    end.

(** [except LookupError]: of the exceptions above only [KeyError]
    derives from [LookupError]. *)
Definition is_LookupError (e : exn) : bool :=
  match e with
  | KeyError _ => true
  | _ => false
  end.

(** [except ValueError]: [JSONDecodeError] derives from [ValueError]. *)
Definition is_ValueError (e : exn) : bool :=
  match e with
  | JSONDecodeError _ | ValueError _ => true
  | _ => false
  end.

(** [try: body / except <catches>: handler]. *)
Definition try_except {A : Type} (body : result A) (catches : exn -> bool)
    (handler : exn -> result A) : result A :=
  match body with
  | Ok a => Ok a
  | Raise e => if catches e then handler e else Raise e
  end.

(** ** Regular expressions: the fragment used by the delimiter *)

Module Re.

Inductive regex : Type :=
| Chr (c : ascii)
| Set_ (cs : list ascii)
| Cat (r1 r2 : regex)
| NotAhead (r : regex).

(** [match_at r s]: the text left after [r] matched at the start of
    [s], [None] when it does not match there.  No construct of the
    fragment backtracks, so there is at most one match. *)
Fixpoint match_at (r : regex) (s : string) : option string :=
  match r with
  | Chr c =>
      match s with
      | String c' rest => if Ascii.eqb c c' then Some rest else None
      | EmptyString => None
      end
  | Set_ cs =>
      match s with
      | String c' rest => if existsb (Ascii.eqb c') cs then Some rest else None
      | EmptyString => None
      end
  | Cat r1 r2 =>
      match match_at r1 s with
      | Some rest => match_at r2 rest
      | None => None
      end
  | NotAhead r' =>
      match match_at r' s with
      | Some _ => None
      | None => Some s
      end
  end.

(** The scan of [re.split]: [cur] collects the piece since the last
    match.  A match that consumes nothing is passed over; the
    delimiter pattern always consumes its backslash. *)
Fixpoint split_loop (fuel : nat) (r : regex) (s cur : string) : list string :=
  match fuel with
  | O => [cur +:+ s]
  | S fuel' =>
      match s with
      | EmptyString => [cur]
      | String c s' =>
          match match_at r s with
          | Some rest =>
              if Nat.ltb (String.length rest) (String.length s)
              then cur :: split_loop fuel' r rest EmptyString
              else split_loop fuel' r s' (cur +:+ String c EmptyString)
          | None => split_loop fuel' r s' (cur +:+ String c EmptyString)
          end
      end
  end.

(** [re.split(pattern, string)] for a pattern without groups. *)
Definition split (r : regex) (s : string) : list string :=
  split_loop (S (String.length s)) r s EmptyString.

End Re.

(** ** The class *)

Definition backslash : ascii := "092"%char.
Definition quote : ascii := "034"%char.

(** [DELIMITER_PATTERN = '\\\\(?!\\\\["/bfnrtu])']: the Python literal
    denotes the pattern text [\\(?!\\["/bfnrtu])], that is an escaped
    backslash, then a negative lookahead for an escaped backslash
    followed by one character of the class. *)
Definition DELIMITER_PATTERN : Re.regex :=
  Re.Cat (Re.Chr backslash)
    (Re.NotAhead
       (Re.Cat (Re.Chr backslash)
          (Re.Set_ [quote; "/"; "b"; "f"; "n"; "r"; "t"; "u"]%char))).

Record JSNOT : Type := { _value : value }.

(** What the constructor is called with: a file-like object (given by
    the text it yields) or any other object, a [str] among them. *)
Inductive init_arg : Type :=
| FromStream (text : string)
| FromValue (v : value).

(** [type(val)]. *)
Definition type_of (v : value) : pyclass :=
  match v with
  | VNull => py_NoneType
  | VBool _ => py_bool
  | VInt _ => py_int
  | VFloat _ => py_float
  | VStr _ => py_str
  | VList _ => py_list
  | VDict _ => py_dict
  end.

Definition pyclass_eqb (c1 c2 : pyclass) : bool :=
  match c1, c2 with
  | py_object, py_object | py_NoneType, py_NoneType | py_bool, py_bool
  | py_int, py_int | py_float, py_float | py_str, py_str
  | py_list, py_list | py_dict, py_dict | py_type, py_type => true
  | _, _ => false
  end.

(** [issubclass]: every class derives from [object], [bool] from [int]. *)
Definition issubclass (c1 c2 : pyclass) : bool :=
  pyclass_eqb c1 c2
  || pyclass_eqb c2 py_object
  || (pyclass_eqb c1 py_bool && pyclass_eqb c2 py_int).

(** [isinstance(v, k)]. *)
Fixpoint isinstance (v : value) (k : classinfo) : bool :=
  match k with
  | Class c => issubclass (type_of v) c
  | Tuple cs => existsb (isinstance v) cs
  end.

(** [prev[cur]] for a string [cur]: a dict looks the key up; lists and
    strings refuse a string index; the other values have no
    [__getitem__] at all. *)
Definition subscript (prev : value) (cur : string) : result value :=
  match prev with
  | VDict d =>
      match d !! cur with
      | Some v => Ok v
      | None => Raise (KeyError cur)
      end
  | VList _ => Raise (TypeError (BadIndices py_list))
  | VStr _ => Raise (TypeError (BadIndices py_str))
  | v => Raise (TypeError (NotSubscriptable (type_of v)))
  end.

(** [functools.reduce(function, iterable, initial)]; an exception of
    [function] ends the fold. *)
Fixpoint reduce {A B : Type} (function : A -> B -> result A)
    (iterable : list B) (initial : A) : result A :=
  match iterable with
  | [] => Ok initial
  | x :: rest => a ← function initial x; reduce function rest a
  end.

(** Why [json.loads] turns a text down: the text is no JSON
    ([JSONDecodeError]); an integer literal has more digits than [int]
    converts (a plain [ValueError] with the message of [int]); the
    text nests deeper than the interpreter recurses
    ([RecursionError]). *)
Inductive refusal : Type :=
| NotJSON
| IntTooLong (message : string)
| TooDeep.

(** What [json.loads] answers to a text. *)
Inductive decoded : Type :=
| Decoded (v : value)
| Refused (why : refusal).

(** The exception that leaves [json.loads(text)] for a refusal.  None
    of them derives from [LookupError]. *)
Definition raised (why : refusal) (text : string) : exn :=
  match why with
  | NotJSON => JSONDecodeError text
  | IntTooLong message => ValueError (OVal (VStr message))
  | TooDeep => RecursionError
  end.

Section Methods.

(** [json.loads]. *)
Variable json_loads : string -> decoded.

Definition decode (text : string) : result value :=
  match json_loads text with
  | Decoded v => Ok v
  | Refused why => Raise (raised why text)
  end.

Definition __init__ (value : init_arg) : result JSNOT :=
  match value with
  | FromValue (VStr s) => v ← decode s; Ok {| _value := v |}
  | FromStream text => v ← decode text; Ok {| _value := v |}
  | FromValue v => Ok {| _value := v |}
  end.

Definition __getitem__ (self : JSNOT) (item : string) : result value :=
  let root := _value self in
  match root with
  | VDict _ =>
      let parts := Re.split DELIMITER_PATTERN item in
      reduce (fun prev cur => subscript prev cur) parts root
  | _ => Ok root
  end.

Definition at_path (self : JSNOT) (path : string) : result JSNOT :=
  raw ← __getitem__ self path; __init__ (FromValue raw).

Definition get {D : Type} (self : JSNOT) (path : string) (default : D)
    : result (JSNOT + D) :=
  try_except (j ← at_path self path; Ok (inl j))
    is_LookupError (fun _ => Ok (inr default)).

Definition has (self : JSNOT) (path : string) : result bool :=
  try_except (_ ← __getitem__ self path; Ok true)
    is_LookupError (fun _ => Ok false).

Definition satisfy (self : JSNOT) (classinfo : classinfo) : result JSNOT :=
  if negb (isinstance (_value self) classinfo)
  then Raise (TypeError (Expected classinfo))
  else Ok self.

Definition cast (self : JSNOT) (typ : option pyclass) : result pyobject :=
  let val := _value self in
  try_except
    (match typ with
     | Some _ => Ok (OType (type_of val))
     | None => Ok (OVal val)
     end)
    is_ValueError (fun _ => Raise (ValueError (OType py_type))).

End Methods.

(** ** The tokenization rule on its own *)

(** The letters of the class in [DELIMITER_PATTERN]. *)
Definition escape_letter (c : ascii) : bool :=
  existsb (Ascii.eqb c) [quote; "/"; "b"; "f"; "n"; "r"; "t"; "u"]%char.

(** The text after a backslash starts an escape for the pattern: a
    second backslash and then a letter of the class. *)
Definition escaped (rest : string) : bool :=
  match rest with
  | String c (String d _) => Ascii.eqb c backslash && escape_letter d
  | _ => false
  end.

(** The character [c], followed by [rest], is a separator. *)
Definition separates (c : ascii) (rest : string) : bool :=
  Ascii.eqb c backslash && negb (escaped rest).

(** The nine escape indicators of the note under [DELIMITER_PATTERN]:
    the class letters and the backslash itself. *)
Definition ESCAPE_INDICATORS : list ascii :=
  [quote; backslash; "/"; "b"; "f"; "n"; "r"; "t"; "u"]%char.

Definition starts_with_indicator (rest : string) : bool :=
  match rest with
  | String d _ => existsb (Ascii.eqb d) ESCAPE_INDICATORS
  | EmptyString => false
  end.

(** The rule in the words of the specification: a backslash separates
    unless one of the nine indicators comes right after it. *)
Definition separates_spec (c : ascii) (rest : string) : bool :=
  Ascii.eqb c backslash && negb (starts_with_indicator rest).

(** Put the text [pre] in front of the first segment. *)
Definition prepend (pre : string) (segs : list string) : list string :=
  match segs with
  | [] => [pre]
  | seg :: more => (pre +:+ seg) :: more
  end.

(** The segments of [s] for a given notion of separator: a separator
    closes the segment before it, any other character joins the
    segment it stands in. *)
Fixpoint segments_by (sep : ascii -> string -> bool) (s : string) : list string :=
  match s with
  | EmptyString => [EmptyString]
  | String c rest =>
      if sep c rest
      then EmptyString :: segments_by sep rest
      else prepend (String c EmptyString) (segments_by sep rest)
  end.

Definition segments : string -> list string := segments_by separates.
Definition segments_spec : string -> list string := segments_by separates_spec.

(** [delimiter.join(segs)]. *)
Definition join (segs : list string) : string :=
  String.concat (String backslash EmptyString) segs.

Fixpoint occurs (c : ascii) (s : string) : bool :=
  match s with
  | EmptyString => false
  | String c' rest => Ascii.eqb c c' || occurs c rest
  end.

(** ** Key-by-key indexing, stated as a relation *)

(** How indexing a value with a list of keys, one after the other,
    ends: at a value, at a mapping that lacks the next key, or at a
    value that is no mapping while a key is still to be used. *)
Inductive outcome : Type :=
| Reached (v : value)
| Absent (key : string)
| NotAMapping (v : value).

Definition is_dict (v : value) : bool :=
  match v with
  | VDict _ => true
  | _ => false
  end.

Inductive traverse : value -> list string -> outcome -> Prop :=
| traverse_done v :
    traverse v [] (Reached v)
| traverse_step d key keys v o :
    d !! key = Some v -> traverse v keys o ->
    traverse (VDict d) (key :: keys) o
| traverse_absent d key keys :
    d !! key = None ->
    traverse (VDict d) (key :: keys) (Absent key)
| traverse_stuck v key keys :
    is_dict v = false ->
    traverse v (key :: keys) (NotAMapping v).

(** The exception Python raises for [v[key]] when [v] is no mapping;
    it is the same for every string [key]. *)
Definition subscript_error (v : value) : type_error :=
  match v with
  | VList _ => BadIndices py_list
  | VStr _ => BadIndices py_str
  | v => NotSubscriptable (type_of v)
  end.

Definition result_of (o : outcome) : result value :=
  match o with
  | Reached v => Ok v
  | Absent key => Raise (KeyError key)
  | NotAMapping v => Raise (TypeError (subscript_error v))
  end.

(** ** A decoder for the closed examples *)

Definition digit_of (c : ascii) : option Z :=
  let n := Z.of_N (N_of_ascii c) in
  if ((48 <=? n) && (n <=? 57))%Z then Some (n - 48)%Z else None.

Fixpoint decimal (s : string) (acc : Z) : option Z :=
  match s with
  | EmptyString => Some acc
  | String c rest =>
      match digit_of c with
      | Some k => decimal rest (10 * acc + k)%Z
      | None => None
      end
  end.

(** The message of [int] for a string of [n] digits, [n] over the
    limit. *)
Definition int_too_long (n : nat) : string :=
  "Exceeds the limit (4300 digits) for integer string conversion: value has "
  +:+ NilZero.string_of_uint (Nat.to_uint n)
  +:+ " digits; use sys.set_int_max_str_digits() to increase the limit".

(** The digits of a JSON integer: at least one, no leading zero
    before another digit, and no more than 4300 of them, the limit
    [int] has for the conversion of a string. *)
Definition json_digits (digits : string) : decoded :=
  match digits with
  | EmptyString => Refused NotJSON
  | String c rest =>
      if Ascii.eqb c "0" && negb (String.eqb rest EmptyString)
      then Refused NotJSON
      else
        match decimal digits 0 with
        | None => Refused NotJSON
        | Some n =>
            if Nat.ltb 4300 (String.length digits)
            then Refused (IntTooLong (int_too_long (String.length digits)))
            else Decoded (VInt n)
        end
  end.

(** [json.loads] on the texts that are one scalar without blanks:
    [null], [true], [false], [NaN], [Infinity], [-Infinity] and the
    decimal integers.  On these texts, and on texts that are no JSON
    at all, it answers what [json.loads] answers.  It knows no
    strings, fractions, exponents, arrays, objects or blanks, and
    answers [NotJSON] to them as well, which [json.loads] does not:
    it stands for the decoder in the closed examples only, all on
    texts of the first kind; every theorem is proved for an arbitrary
    decoder. *)
Definition json_scalar (text : string) : decoded :=
  if String.eqb text "null" then Decoded VNull
  else if String.eqb text "true" then Decoded (VBool true)
  else if String.eqb text "false" then Decoded (VBool false)
  else if String.eqb text "NaN" then Decoded (VFloat S754_nan)
  else if String.eqb text "Infinity" then Decoded (VFloat (S754_infinity false))
  else if String.eqb text "-Infinity" then Decoded (VFloat (S754_infinity true))
  else
    match text with
    | String "-" digits =>
        match json_digits digits with
        | Decoded (VInt n) => Decoded (VInt (- n))
        | answer => answer
        end
    | _ => json_digits text
    end.

(** The documents of the examples. *)
Definition doc_a_b_1 : JSNOT :=
  {| _value := VDict {[ "a" := VDict {[ "b" := VInt 1 ]} ]} |}.
Definition doc_a_1 : JSNOT :=
  {| _value := VDict {[ "a" := VInt 1 ]} |}.
Definition doc_a_x : JSNOT :=
  {| _value := VDict {[ "a" := VStr "x" ]} |}.
Definition doc_a_19 : JSNOT :=
  {| _value := VDict {[ "a" := VStr "19" ]} |}.
Definition doc_test : JSNOT :=
  {| _value :=
       VDict {[ "test" := VDict (<[ "or" := VInt 20 ]>
                                   {[ "goes" := VDict {[ "deep" := VInt 19 ]} ]}) ]} |}.

(** ** Keys and paths built from them *)

(** A backslash stands nowhere in [s] but, at most, at its end. *)
Fixpoint backslash_only_last (s : string) : bool :=
  match s with
  | EmptyString => true
  | String c rest =>
      match rest with
      | EmptyString => true
      | String _ _ => negb (Ascii.eqb c backslash) && backslash_only_last rest
      end
  end.

(** How often the character [c] stands in [s]. *)
Fixpoint count (c : ascii) (s : string) : nat :=
  match s with
  | EmptyString => 0
  | String c' rest => (if Ascii.eqb c c' then 1 else 0) + count c rest
  end.

(** A key that is not empty and holds no backslash. *)
Definition plain_key (key : string) : bool :=
  negb (String.eqb key EmptyString) && negb (occurs backslash key).

(** The path that goes on with [q] after [p]: [p + delimiter + q]. *)
Definition extend (p q : string) : string :=
  p +:+ String backslash q.

(** * Tokenization *)

Section StringFacts.

Lemma app_empty_l (s : string) : EmptyString +:+ s = s.
Proof. reflexivity. Qed.

Lemma app_cons (c : ascii) (s t : string) :
  String c s +:+ t = String c (s +:+ t).
Proof. reflexivity. Qed.

Lemma app_empty_r (s : string) : s +:+ EmptyString = s.
Proof.
  induction s as [|c s IH]; [reflexivity|].
  rewrite app_cons, IH. reflexivity.
Qed.

Lemma app_assoc_str (s t u : string) : (s +:+ t) +:+ u = s +:+ t +:+ u.
Proof.
  induction s as [|c s IH]; [reflexivity|].
  rewrite !app_cons, IH. reflexivity.
Qed.

End StringFacts.

Lemma prepend_empty (segs : list string) :
  segs <> [] -> prepend EmptyString segs = segs.
Proof. destruct segs as [|seg more]; [congruence | reflexivity]. Qed.

Lemma prepend_prepend (pre mid : string) (segs : list string) :
  prepend pre (prepend mid segs) = prepend (pre +:+ mid) segs.
Proof.
  destruct segs as [|seg more]; cbn [prepend]; [reflexivity|].
  now rewrite app_assoc_str.
Qed.

Lemma prepend_app (pre : string) (xs ys : list string) :
  xs <> [] -> prepend pre (xs ++ ys) = prepend pre xs ++ ys.
Proof. destruct xs as [|x xs]; [congruence | reflexivity]. Qed.

Lemma prepend_nonempty (pre : string) (segs : list string) :
  prepend pre segs <> [].
Proof. destruct segs; discriminate. Qed.

Lemma segments_by_nonempty sep (s : string) : segments_by sep s <> [].
Proof.
  destruct s as [|c rest]; cbn [segments_by]; [discriminate|].
  destruct (sep c rest); [discriminate | apply prepend_nonempty].
Qed.

(** The pattern at a character: it matches exactly a separator, and
    then consumes that one character. *)
Lemma match_at_delimiter (c : ascii) (rest : string) :
  Re.match_at DELIMITER_PATTERN (String c rest)
  = if separates c rest then Some rest else None.
Proof.
  unfold separates, DELIMITER_PATTERN. cbn [Re.match_at].
  rewrite (Ascii.eqb_sym backslash c).
  destruct (Ascii.eqb c backslash); [|reflexivity].
  destruct rest as [|c1 [|d rest']]; cbn [escaped andb negb]; try reflexivity.
  - destruct (Ascii.eqb backslash c1); reflexivity.
  - rewrite (Ascii.eqb_sym backslash c1).
    destruct (Ascii.eqb c1 backslash); [|reflexivity].
    unfold escape_letter. cbn [andb].
    destruct (existsb (Ascii.eqb d) _); reflexivity.
Qed.

Lemma split_loop_segments (fuel : nat) : forall (s cur : string),
  String.length s < fuel ->
  Re.split_loop fuel DELIMITER_PATTERN s cur = prepend cur (segments s).
Proof.
  induction fuel as [|fuel IH]; intros s cur Hlt; [lia|].
  destruct s as [|c rest].
  - cbn. now rewrite app_empty_r.
  - cbn [Re.split_loop]. rewrite match_at_delimiter.
    unfold segments. cbn [segments_by]. fold (segments rest).
    cbn [String.length] in Hlt.
    destruct (separates c rest).
    + replace (Nat.ltb _ _) with true
        by (symmetry; apply Nat.ltb_lt; cbn [String.length]; lia).
      rewrite IH by lia.
      rewrite prepend_empty by apply segments_by_nonempty.
      cbn [prepend]. now rewrite app_empty_r.
    + rewrite IH by lia. now rewrite prepend_prepend.
Qed.

Lemma split_segments (path : string) :
  Re.split DELIMITER_PATTERN path = segments path.
Proof.
  unfold Re.split. rewrite split_loop_segments by lia.
  apply prepend_empty, segments_by_nonempty.
Qed.

Lemma join_prepend (c : ascii) (segs : list string) :
  segs <> [] ->
  join (prepend (String c EmptyString) segs) = String c (join segs).
Proof.
  destruct segs as [|seg [|seg' more]]; [congruence | reflexivity | reflexivity].
Qed.

Lemma join_empty_cons (segs : list string) :
  segs <> [] -> join (EmptyString :: segs) = String backslash (join segs).
Proof.
  destruct segs as [|seg more]; [congruence | reflexivity].
Qed.

(** Tokenization drops nothing but separators. *)
Lemma join_segments (s : string) : join (segments s) = s.
Proof.
  induction s as [|c rest IH]; [reflexivity|].
  unfold segments in *. cbn [segments_by].
  destruct (separates c rest) eqn:Hsep.
  - rewrite join_empty_cons by apply segments_by_nonempty.
    unfold separates in Hsep. apply andb_prop in Hsep as [Hc _].
    apply Ascii.eqb_eq in Hc. now rewrite IH, Hc.
  - rewrite join_prepend by apply segments_by_nonempty. now rewrite IH.
Qed.

Lemma segments_no_delimiter (path : string) :
  occurs backslash path = false -> segments path = [path].
Proof.
  induction path as [|c rest IH]; intros Hocc; [reflexivity|].
  cbn [occurs] in Hocc. apply orb_false_elim in Hocc as [Hc Hrest].
  assert (Hsep : separates c rest = false).
  { unfold separates. now rewrite Ascii.eqb_sym, Hc. }
  unfold segments in *. cbn [segments_by].
  now rewrite Hsep, IH.
Qed.

(** Whether a character separates is not changed by two backslashes
    put after the text that follows it: the lookahead reads a
    backslash and a class letter, and a backslash is no class letter. *)
Lemma separates_before_pair (c : ascii) (pre tail : string) :
  separates c (pre +:+ String backslash (String backslash tail))
  = separates c pre.
Proof.
  unfold separates. destruct (Ascii.eqb c backslash); [|reflexivity].
  cbn [andb]. f_equal.
  destruct pre as [|c1 [|d pre']];
    rewrite ?app_cons, ?app_empty_l; cbn [escaped]; try reflexivity.
  change (escape_letter backslash) with false. now rewrite andb_false_r.
Qed.

(** The nine indicators are the backslash and the class letters. *)
Lemma starts_with_indicator_cons (d : ascii) (rest : string) :
  starts_with_indicator (String d rest)
  = Ascii.eqb d backslash || escape_letter d.
Proof.
  unfold starts_with_indicator, ESCAPE_INDICATORS, escape_letter.
  cbn [existsb].
  destruct (Ascii.eqb d quote), (Ascii.eqb d backslash); reflexivity.
Qed.

Lemma segments_pair (pre post : string) :
  starts_with_indicator post = false ->
  segments (pre +:+ String backslash (String backslash post))
  = segments pre ++ EmptyString :: segments post.
Proof.
  intros Hpost.
  assert (Hfirst : escaped (String backslash post) = false).
  { destruct post as [|d post']; [reflexivity|].
    rewrite starts_with_indicator_cons in Hpost.
    apply orb_false_elim in Hpost as [_ Hd].
    cbn [escaped]. now rewrite Hd, andb_false_r. }
  assert (Hsecond : escaped post = false).
  { destruct post as [|d [|e post']]; try reflexivity.
    rewrite starts_with_indicator_cons in Hpost.
    apply orb_false_elim in Hpost as [Hd _].
    cbn [escaped]. now rewrite Hd. }
  induction pre as [|c pre IH].
  - rewrite app_empty_l. unfold segments, separates. cbn [segments_by].
    rewrite Ascii.eqb_refl, Hfirst, Hsecond. reflexivity.
  - rewrite app_cons. unfold segments in *. cbn [segments_by].
    rewrite separates_before_pair, IH.
    destruct (separates c pre); [reflexivity|].
    apply prepend_app, segments_by_nonempty.
Qed.

(** What [re.split] does with [DELIMITER_PATTERN]: it cuts the path at
    every backslash except one that is followed by a second backslash
    and then one of the letters double quote, slash, b, f, n, r, t, u,
    and drops nothing but the separators. *)
Lemma split_delimiter_rule :
  (forall path : string,
      Re.split DELIMITER_PATTERN path = segments path
      /\ join (Re.split DELIMITER_PATTERN path) = path)
  /\ Re.split DELIMITER_PATTERN "a\b" = ["a"; "b"]
  /\ Re.split DELIMITER_PATTERN "a\\b" = ["a\"; "b"].
Proof.
  split; [|split; reflexivity].
  intros path. rewrite split_segments. split; [reflexivity|].
  apply join_segments.
Qed.

(** C1, where the code departs from it: the path a, backslash,
    backslash, b.  Its first backslash is followed by a backslash,
    one of the nine escape indicators of the note under
    [DELIMITER_PATTERN], and its second by b, another one, so by the
    rule neither separates and the path is one segment.  The pattern
    has the backslash before the class instead of inside it: it keeps
    the first backslash and cuts at the second, and the segments are
    a, backslash and b.  At a, backslash, b it cuts as well, where
    the rule of the nine indicators keeps one segment. *)
Theorem split_indicator_rule_fails :
  Re.split DELIMITER_PATTERN "a\\b" = ["a\"; "b"]
  /\ segments_spec "a\\b" = ["a\\b"]
  /\ Re.split DELIMITER_PATTERN "a\\b" <> ["a\b"]
  /\ segments_spec "a\b" = ["a\b"]
  /\ Re.split DELIMITER_PATTERN "a\b" <> segments_spec "a\b".
Proof. repeat split; (reflexivity || (vm_compute; discriminate)). Qed.

(** C8: the empty path is the one segment that is the empty string; a
    path without a backslash is the one segment that is the path; and
    two backslashes in a row, followed by no escape indicator, leave
    an empty segment between the segments of the text before them and
    those of the text after them. *)
Theorem split_edge_cases :
  Re.split DELIMITER_PATTERN EmptyString = [EmptyString]
  /\ (forall path : string,
         occurs backslash path = false ->
         Re.split DELIMITER_PATTERN path = [path])
  /\ (forall pre post : string,
         starts_with_indicator post = false ->
         Re.split DELIMITER_PATTERN
           (pre +:+ String backslash (String backslash post))
         = Re.split DELIMITER_PATTERN pre
             ++ EmptyString :: Re.split DELIMITER_PATTERN post).
Proof.
  split; [reflexivity|]. split.
  - intros path Hocc. rewrite split_segments. now apply segments_no_delimiter.
  - intros pre post Hpost. rewrite !split_segments. now apply segments_pair.
Qed.

Example split_edge_cases_a_c :
  Re.split DELIMITER_PATTERN "a\\c" = ["a"; EmptyString; "c"]
  /\ Re.split DELIMITER_PATTERN "test\goes\deep" = ["test"; "goes"; "deep"].
Proof. split; reflexivity. Qed.

(** * Traversal *)

Lemma subscript_not_dict (v : value) (key : string) :
  is_dict v = false ->
  subscript v key = Raise (TypeError (subscript_error v)).
Proof. destruct v; (discriminate || reflexivity). Qed.

(** The fold of [__getitem__] ends the way the relation says. *)
Lemma reduce_traverse (v : value) (keys : list string) (o : outcome) :
  traverse v keys o ->
  reduce (fun prev cur => subscript prev cur) keys v = result_of o.
Proof.
  induction 1 as [v | d key keys v o Hkey _ IH | d key keys Hkey | v key keys Hv];
    cbn [reduce result_of].
  - reflexivity.
  - cbn [subscript]. rewrite Hkey. exact IH.
  - cbn [subscript]. now rewrite Hkey.
  - now rewrite subscript_not_dict.
Qed.

(** Every start and every list of keys has an outcome. *)
Lemma traverse_total (keys : list string) :
  forall v : value, exists o : outcome, traverse v keys o.
Proof.
  induction keys as [|key keys IH]; intros v.
  - exists (Reached v). constructor.
  - destruct (is_dict v) eqn:Hv.
    + destruct v as [| | | | | |d]; try discriminate.
      destruct (d !! key) as [w|] eqn:Hkey.
      * destruct (IH w) as [o Ho]. exists o. eapply traverse_step; eauto.
      * exists (Absent key). now constructor.
    + exists (NotAMapping v). now constructor.
Qed.

Lemma getitem_mapping (d : gmap string value) (path : string) (o : outcome) :
  traverse (VDict d) (Re.split DELIMITER_PATTERN path) o ->
  __getitem__ {| _value := VDict d |} path = result_of o.
Proof. intros Ho. unfold __getitem__. cbn [_value]. now apply reduce_traverse. Qed.

(** C2 (as the code has it): on a wrapped mapping [__getitem__]
    returns the value reached exactly when every segment resolves;
    it raises an exception of the lookup kind, a [KeyError], exactly
    when a segment is absent from the mapping reached at that point;
    and when a segment reaches a value that is no mapping and a
    further segment indexes it, it raises Python's [TypeError] for
    that subscription, which is not of the lookup kind. *)
Theorem getitem_outcomes (d : gmap string value) (path : string) :
  let self := {| _value := VDict d |} in
  let keys := Re.split DELIMITER_PATTERN path in
  (forall v, __getitem__ self path = Ok v <-> traverse (VDict d) keys (Reached v))
  /\ ((exists e, __getitem__ self path = Raise e /\ is_LookupError e = true)
      <-> exists key, traverse (VDict d) keys (Absent key))
  /\ ((exists e, __getitem__ self path = Raise e /\ is_LookupError e = false)
      <-> exists v, traverse (VDict d) keys (NotAMapping v))
  /\ (forall v, traverse (VDict d) keys (NotAMapping v) ->
        __getitem__ self path = Raise (TypeError (subscript_error v))).
Proof.
  intros self keys.
  destruct (traverse_total keys (VDict d)) as [o Ho].
  pose proof (getitem_mapping d path o Ho) as Hget. fold self in Hget.
  assert (Hall : forall o', traverse (VDict d) keys o' ->
                            __getitem__ self path = result_of o').
  { intros o' Ho'. now apply getitem_mapping. }
  repeat split.
  - intros Hv. rewrite Hget in Hv.
    destruct o; cbn in Hv; now inversion Hv; subst.
  - intros Hv. now rewrite (Hall _ Hv).
  - intros (e & He & Hkind). rewrite Hget in He.
    destruct o as [v|key|v]; cbn in He; inversion He; subst; try discriminate.
    now exists key.
  - intros [key Hkey]. exists (KeyError key). split; [|reflexivity].
    now rewrite (Hall _ Hkey).
  - intros (e & He & Hkind). rewrite Hget in He.
    destruct o as [v|key|v]; cbn in He; inversion He; subst; try discriminate.
    now exists v.
  - intros [v Hv]. exists (TypeError (subscript_error v)).
    split; [|reflexivity]. now rewrite (Hall _ Hv).
  - intros v Hv. now rewrite (Hall _ Hv).
Qed.

(** C2 as worded fails on the document with a set to 1 at the path
    a, backslash, b: the segment a resolves to the number 1, the
    segment b then indexes it, and what [__getitem__] raises is a
    [TypeError], no exception of the lookup kind. *)
Lemma getitem_type_error_not_lookup :
  traverse (_value doc_a_1) (Re.split DELIMITER_PATTERN "a\b")
    (NotAMapping (VInt 1))
  /\ __getitem__ doc_a_1 "a\b" = Raise (TypeError (NotSubscriptable py_int))
  /\ ~ (exists e, __getitem__ doc_a_1 "a\b" = Raise e /\ is_LookupError e = true).
Proof.
  split; [|split].
  - change (Re.split DELIMITER_PATTERN "a\b") with ["a"; "b"].
    eapply traverse_step; [reflexivity|]. now apply traverse_stuck.
  - reflexivity.
  - intros (e & He & Hkind). vm_compute in He.
    inversion He; subst. discriminate.
Qed.

(** C7: when the wrapped value is no mapping, [__getitem__] returns
    it as it is, whatever the path. *)
Theorem getitem_not_mapping (self : JSNOT) (path : string) :
  is_dict (_value self) = false ->
  __getitem__ self path = Ok (_value self).
Proof.
  unfold __getitem__. destruct (_value self); (discriminate || reflexivity).
Qed.

Lemma getitem_not_mapping_witness :
  __getitem__ {| _value := VList [VInt 1; VStr "a\b"] |} "0\a\\b"
  = Ok (VList [VInt 1; VStr "a\b"]).
Proof.
  apply (getitem_not_mapping {| _value := VList [VInt 1; VStr "a\b"] |} "0\a\\b").
  reflexivity.
Defined.

(** * The accessors built on [__getitem__] *)


Lemma raised_not_lookup (why : refusal) (text : string) :
  is_LookupError (raised why text) = false.
Proof. destruct why; reflexivity. Qed.

Section Accessors.

Variable json_loads : string -> decoded.

(** [at_path] by the result of the raw lookup: a string is decoded
    by the constructor, any other value is wrapped as it is. *)
Lemma at_path_cases (self : JSNOT) (path : string) :
  at_path json_loads self path
  = match __getitem__ self path with
    | Ok (VStr s) =>
        match json_loads s with
        | Decoded v => Ok {| _value := v |}
        | Refused why => Raise (raised why s)
        end
    | Ok raw => Ok {| _value := raw |}
    | Raise e => Raise e
    end.
Proof.
  unfold at_path. destruct (__getitem__ self path) as [raw|e]; [|reflexivity].
  destruct raw; try reflexivity.
  cbn. unfold decode. destruct (json_loads s); reflexivity.
Qed.

Lemma has_cases (self : JSNOT) (path : string) :
  has self path
  = match __getitem__ self path with
    | Ok _ => Ok true
    | Raise e => if is_LookupError e then Ok false else Raise e
    end.
Proof. unfold has. destruct (__getitem__ self path); reflexivity. Qed.

Lemma get_cases {D : Type} (self : JSNOT) (path : string) (default : D) :
  get json_loads self path default
  = match at_path json_loads self path with
    | Ok j => Ok (inl j)
    | Raise e => if is_LookupError e then Ok (inr default) else Raise e
    end.
Proof. unfold get. destruct (at_path json_loads self path); reflexivity. Qed.

(** No exception of the decoder is of the lookup kind, so [at_path]
    raises such an exception exactly when the raw lookup does. *)
Lemma at_path_lookup_error (self : JSNOT) (path : string) (e : exn) :
  is_LookupError e = true ->
  at_path json_loads self path = Raise e <-> __getitem__ self path = Raise e.
Proof.
  intros Hkind. rewrite at_path_cases.
  destruct (__getitem__ self path) as [raw|e'].
  - split; [|discriminate].
    destruct raw; try discriminate.
    destruct (json_loads s) as [v|why]; [discriminate|].
    intros [= <-]. now rewrite raised_not_lookup in Hkind.
  - split; intros [= ->]; reflexivity.
Qed.

(** C6: when the raw lookup yields a string, [at_path] hands the
    string to the constructor, which decodes it: the result wraps
    the decoded value, and when the decoder turns the string down,
    its exception leaves [at_path].  That exception is not of the
    lookup kind: [has] still returns true on the path and [get]
    lets the exception through instead of returning the default. *)
Theorem at_path_decodes_strings (self : JSNOT) (path s : string) :
  __getitem__ self path = Ok (VStr s) ->
  (forall v, json_loads s = Decoded v ->
             at_path json_loads self path = Ok {| _value := v |})
  /\ (forall why, json_loads s = Refused why ->
        at_path json_loads self path = Raise (raised why s)
        /\ is_LookupError (raised why s) = false
        /\ has self path = Ok true
        /\ forall (D : Type) (default : D),
             get json_loads self path default = Raise (raised why s)).
Proof.
  intros Hraw. split.
  - intros v Hv. now rewrite at_path_cases, Hraw, Hv.
  - intros why Hwhy. repeat split.
    + now rewrite at_path_cases, Hraw, Hwhy.
    + apply raised_not_lookup.
    + now rewrite has_cases, Hraw.
    + intros D default.
      now rewrite get_cases, at_path_cases, Hraw, Hwhy, raised_not_lookup.
Qed.

End Accessors.

(** C3, where the code departs from it: the document with a set to 1
    and the path a, backslash, b.  Nothing is at that path, so [has]
    is to return false, as its documentation says; but the lookup
    raises a [TypeError], [has] handles [LookupError] only, and the
    [TypeError] leaves [has].  [at_path] raises the same [TypeError],
    which is nothing of the lookup kind. *)
Theorem has_raises_type_error :
  has doc_a_1 "a\b" = Raise (TypeError (NotSubscriptable py_int))
  /\ at_path json_scalar doc_a_1 "a\b"
     = Raise (TypeError (NotSubscriptable py_int))
  /\ is_LookupError (TypeError (NotSubscriptable py_int)) = false.
Proof. repeat split. Qed.

(** C4, where the code departs from it: the document with the text
    19 at a, the path a and the default -1.  The path is present and
    holds the string, but [get] returns a [JSNOT] wrapping the number
    19: [at_path] hands the string to the constructor, which decodes
    it.  With the text x at a, the [JSONDecodeError] of the
    constructor leaves [get]; with 1 at a and the path a, backslash,
    b, the [TypeError] of the lookup leaves [get]. *)
Theorem get_string_not_wrapped :
  __getitem__ doc_a_19 "a" = Ok (VStr "19")
  /\ get json_scalar doc_a_19 "a" (-1)%Z = Ok (inl {| _value := VInt 19 |})
  /\ get json_scalar doc_a_19 "a" (-1)%Z <> Ok (inl {| _value := VStr "19" |})
  /\ get json_scalar doc_a_x "a" (-1)%Z = Raise (JSONDecodeError "x")
  /\ get json_scalar doc_a_1 "a\b" (-1)%Z
     = Raise (TypeError (NotSubscriptable py_int)).
Proof. repeat split. vm_compute. discriminate. Qed.

(** C5, where the code departs from it: the document with the text
    19 at a and the path a.  The segment a resolves to the string,
    which is what indexing the mapping by hand gives, but
    [at_path(a).cast(None)] is the number 19: [at_path] hands the
    string to the constructor, which decodes it. *)
Theorem at_path_cast_none_string :
  traverse (_value doc_a_19) (Re.split DELIMITER_PATTERN "a")
    (Reached (VStr "19"))
  /\ (j ← at_path json_scalar doc_a_19 "a"; cast j None) = Ok (OVal (VInt 19))
  /\ (j ← at_path json_scalar doc_a_19 "a"; cast j None) <> Ok (OVal (VStr "19")).
Proof.
  split; [|split].
  - change (Re.split DELIMITER_PATTERN "a") with ["a"].
    eapply traverse_step; [reflexivity|]. apply traverse_done.
  - reflexivity.
  - vm_compute. discriminate.
Qed.

Lemma at_path_decodes_strings_witness :
  at_path json_scalar doc_a_x "a" = Raise (JSONDecodeError "x")
  /\ has doc_a_x "a" = Ok true
  /\ get json_scalar doc_a_x "a" (-1)%Z = Raise (JSONDecodeError "x")
  /\ at_path json_scalar doc_a_19 "a" = Ok {| _value := VInt 19 |}.
Proof.
  destruct (at_path_decodes_strings json_scalar doc_a_x "a" "x" eq_refl)
    as [_ Hbad].
  destruct (Hbad NotJSON eq_refl) as (Hat & _ & Hhas & Hget).
  destruct (at_path_decodes_strings json_scalar doc_a_19 "a" "19" eq_refl)
    as [Hgood _].
  split; [exact Hat|]. split; [exact Hhas|]. split; [apply Hget|].
  apply Hgood. reflexivity.
Defined.

(** * Type assertion and casting *)

(** C9: [satisfy] raises [TypeError(classinfo)] when the wrapped value
    is no instance of [classinfo] and returns the object it was called
    on otherwise; so calling it twice in a row ends as calling it
    once. *)
Theorem satisfy_same_object (self : JSNOT) (k : classinfo) :
  satisfy self k
  = (if isinstance (_value self) k
     then Ok self
     else Raise (TypeError (Expected k)))
  /\ (j ← satisfy self k; satisfy j k) = satisfy self k.
Proof.
  unfold satisfy. destruct (isinstance (_value self) k) eqn:Hk; cbn.
  - now rewrite Hk.
  - split; reflexivity.
Qed.

Example satisfy_bool_is_int :
  satisfy {| _value := VBool true |} (Class py_int)
  = Ok {| _value := VBool true |}
  /\ satisfy {| _value := VInt 1 |} (Tuple [Class py_str; Class py_dict])
     = Raise (TypeError (Expected (Tuple [Class py_str; Class py_dict]))).
Proof. split; reflexivity. Qed.

(** C10, where the code departs from it: casting the number 19 to
    [float].  [cast] evaluates [type(val)], the built-in [type]
    applied to the wrapped value, where the parameter is named [typ]:
    what comes back is the class [int] of the value, not the class
    [float] that was given, and not the number converted to it. *)
Theorem cast_not_given_type :
  cast {| _value := VInt 19 |} (Some py_float) = Ok (OType py_int)
  /\ cast {| _value := VInt 19 |} (Some py_float) <> Ok (OType py_float).
Proof. split; [reflexivity | discriminate]. Qed.

(** The end-to-end example of the class documentation. *)
Example doc_test_deep :
  at_path json_scalar doc_test "test\goes\deep" = Ok {| _value := VInt 19 |}
  /\ __getitem__ doc_test "test\nomatch" = Raise (KeyError "nomatch")
  /\ has doc_test "test\or" = Ok true
  /\ has doc_test "test\nomatch" = Ok false.
Proof. repeat split. Qed.

(** * More on tokenization *)

Lemma escape_letter_not_backslash (d : ascii) :
  escape_letter d = true -> Ascii.eqb d backslash = false.
Proof.
  intros Hd. destruct (Ascii.eqb_spec d backslash) as [->|]; [|reflexivity].
  discriminate Hd.
Qed.

Lemma length_prepend (pre : string) (segs : list string) :
  segs <> [] -> length (prepend pre segs) = length segs.
Proof. destruct segs; [congruence | reflexivity]. Qed.

(** A text without backslash in front of [s] joins the first segment
    of [s]. *)
Lemma segments_plain_prefix (k s : string) :
  occurs backslash k = false ->
  segments (k +:+ s) = prepend k (segments s).
Proof.
  induction k as [|c k IH]; intros Hk.
  - rewrite app_empty_l. symmetry. apply prepend_empty, segments_by_nonempty.
  - cbn [occurs] in Hk. apply orb_false_elim in Hk as [Hc Hk].
    rewrite app_cons. unfold segments in *. cbn [segments_by].
    assert (Hsep : separates c (k +:+ s) = false).
    { unfold separates. now rewrite Ascii.eqb_sym, Hc. }
    rewrite Hsep, IH by exact Hk. now rewrite prepend_prepend.
Qed.

Lemma plain_key_head (key : string) :
  plain_key key = true ->
  exists c rest, key = String c rest /\ Ascii.eqb c backslash = false.
Proof.
  unfold plain_key. intros [Hne Hocc]%andb_prop.
  destruct key as [|c rest]; [discriminate|].
  apply negb_true_iff in Hocc. cbn [occurs] in Hocc.
  apply orb_false_elim in Hocc as [Hc _].
  exists c, rest. split; [reflexivity|]. now rewrite Ascii.eqb_sym.
Qed.

Lemma plain_key_occurs (key : string) :
  plain_key key = true -> occurs backslash key = false.
Proof.
  unfold plain_key. intros [_ Hocc]%andb_prop. now apply negb_true_iff.
Qed.

Lemma join_cons (key key' : string) (keys : list string) :
  join (key :: key' :: keys) = key +:+ String backslash (join (key' :: keys)).
Proof. reflexivity. Qed.

Lemma escaped_head (c : ascii) (rest : string) :
  Ascii.eqb c backslash = false -> escaped (String c rest) = false.
Proof. intros Hc. destruct rest; cbn [escaped]; [reflexivity | now rewrite Hc]. Qed.

Lemma segments_join (keys : list string) :
  keys <> [] ->
  Forall (fun key => plain_key key = true) keys ->
  segments (join keys) = keys.
Proof.
  induction keys as [|key keys IH]; intros Hne Hall; [congruence|].
  apply Forall_cons in Hall as [Hkey Hall].
  destruct keys as [|key' keys].
  - apply segments_no_delimiter, plain_key_occurs, Hkey.
  - rewrite join_cons, segments_plain_prefix by now apply plain_key_occurs.
    assert (Hnext : escaped (join (key' :: keys)) = false).
    { apply Forall_cons in Hall as [Hkey' _].
      destruct (plain_key_head _ Hkey') as (c & rest & -> & Hc).
      destruct keys; [|rewrite join_cons, app_cons]; now apply escaped_head. }
    unfold segments in *. cbn [segments_by]. unfold separates at 1.
    rewrite Ascii.eqb_refl, Hnext. cbn [andb negb].
    rewrite IH by (congruence || exact Hall).
    cbn [prepend]. now rewrite app_empty_r.
Qed.

(** X1: a path made by joining keys with the delimiter is cut back
    into those keys, when no key is empty or holds a backslash. *)
Theorem split_join_plain_keys (keys : list string) :
  keys <> [] ->
  Forall (fun key => plain_key key = true) keys ->
  Re.split DELIMITER_PATTERN (join keys) = keys.
Proof. intros Hne Hall. rewrite split_segments. now apply segments_join. Qed.

Lemma split_join_plain_keys_witness :
  Re.split DELIMITER_PATTERN (join ["test"; "goes"; "deep"])
  = ["test"; "goes"; "deep"].
Proof.
  apply (split_join_plain_keys ["test"; "goes"; "deep"]).
  - discriminate.
  - repeat constructor.
Defined.

Lemma backslash_only_last_cons (c : ascii) (seg : string) :
  Ascii.eqb c backslash = false ->
  backslash_only_last seg = true ->
  backslash_only_last (String c seg) = true.
Proof.
  intros Hc Hseg. cbn [backslash_only_last].
  destruct seg; [reflexivity|]. now rewrite Hc.
Qed.

Lemma segments_backslash_only_last (path : string) :
  Forall (fun seg => backslash_only_last seg = true) (segments path).
Proof.
  induction path as [|c rest IH]; [repeat constructor|].
  unfold segments in *. cbn [segments_by].
  destruct (separates c rest) eqn:Hsep; [now constructor|].
  destruct (Ascii.eqb c backslash) eqn:Hc.
  - unfold separates in Hsep. rewrite Hc in Hsep. cbn [andb] in Hsep.
    apply negb_false_iff in Hsep.
    destruct rest as [|c1 [|d rest']]; try discriminate.
    cbn [escaped] in Hsep. apply andb_prop in Hsep as [Hc1 Hd].
    apply escape_letter_not_backslash in Hd.
    apply Ascii.eqb_eq in Hc1 as ->.
    assert (Hnext : separates backslash (String d rest') = true).
    { unfold separates. now rewrite Ascii.eqb_refl, escaped_head. }
    cbn [segments_by] in IH |- *. rewrite Hnext in IH |- *.
    apply Forall_cons in IH as [_ IH].
    cbn [prepend]. now constructor.
  - destruct (segments_by separates rest) as [|seg more] eqn:Hsegs.
    + now destruct (segments_by_nonempty separates rest).
    + apply Forall_cons in IH as [Hseg Hmore]. cbn [prepend].
      constructor; [|exact Hmore].
      rewrite app_cons, app_empty_l. now apply backslash_only_last_cons.
Qed.

(** X2: no segment holds a backslash anywhere but as its last
    character, whatever the path; a key with a backslash before its
    end is never looked up. *)
Theorem split_backslash_only_last (path : string) :
  Forall (fun seg => backslash_only_last seg = true)
    (Re.split DELIMITER_PATTERN path).
Proof. rewrite split_segments. apply segments_backslash_only_last. Qed.

Lemma segments_length (path : string) :
  1 <= length (segments path) <= S (count backslash path).
Proof.
  induction path as [|c rest IH]; [cbn; lia|].
  unfold segments in *. cbn [segments_by count].
  destruct (separates c rest) eqn:Hsep.
  - unfold separates in Hsep. apply andb_prop in Hsep as [Hc _].
    rewrite Ascii.eqb_sym, Hc. cbn [length]. lia.
  - rewrite length_prepend by apply segments_by_nonempty.
    destruct (Ascii.eqb backslash c); lia.
Qed.

(** X3: a path gives at least one segment and at most one more than
    it holds backslashes. *)
Theorem split_length_bounds (path : string) :
  1 <= length (Re.split DELIMITER_PATTERN path) <= S (count backslash path).
Proof. rewrite split_segments. apply segments_length. Qed.

Lemma separates_before_delimiter (c : ascii) (pre q : string) :
  starts_with_indicator q = false ->
  separates c (pre +:+ String backslash q) = separates c pre.
Proof.
  intros Hq. unfold separates. destruct (Ascii.eqb c backslash); [|reflexivity].
  cbn [andb]. f_equal.
  destruct pre as [|c1 [|d pre']];
    rewrite ?app_cons, ?app_empty_l; cbn [escaped]; try reflexivity.
  - destruct q as [|d q']; [reflexivity|].
    rewrite starts_with_indicator_cons in Hq.
    apply orb_false_elim in Hq as [_ Hd]. now rewrite Hd, andb_false_r.
  - change (escape_letter backslash) with false. now rewrite andb_false_r.
Qed.

Lemma segments_extend (p q : string) :
  starts_with_indicator q = false ->
  segments (extend p q) = segments p ++ segments q.
Proof.
  intros Hq. unfold extend.
  induction p as [|c p IH].
  - rewrite app_empty_l. unfold segments, separates. cbn [segments_by].
    rewrite Ascii.eqb_refl. cbn [andb].
    destruct q as [|d q']; [reflexivity|].
    rewrite starts_with_indicator_cons in Hq.
    apply orb_false_elim in Hq as [Hd _]. now rewrite escaped_head.
  - rewrite app_cons. unfold segments in *. cbn [segments_by].
    rewrite separates_before_delimiter, IH by exact Hq.
    destruct (separates c p); [reflexivity|].
    apply prepend_app, segments_by_nonempty.
Qed.

(** X4: when [q] starts with none of the nine escape indicators, the
    path [p], delimiter, [q] is cut into the segments of [p] followed
    by the segments of [q]. *)
Theorem split_extend (p q : string) :
  starts_with_indicator q = false ->
  Re.split DELIMITER_PATTERN (extend p q)
  = Re.split DELIMITER_PATTERN p ++ Re.split DELIMITER_PATTERN q.
Proof. intros Hq. rewrite !split_segments. now apply segments_extend. Qed.

Lemma split_extend_witness :
  Re.split DELIMITER_PATTERN (extend "test\goes" "deep\x")
  = Re.split DELIMITER_PATTERN "test\goes"
    ++ Re.split DELIMITER_PATTERN "deep\x".
Proof. apply (split_extend "test\goes" "deep\x"). reflexivity. Defined.

(** * More on traversal *)

Lemma reduce_app {A B : Type} (f : A -> B -> result A) (xs ys : list B) :
  forall a : A,
    reduce f (xs ++ ys) a = (b ← reduce f xs a; reduce f ys b).
Proof.
  induction xs as [|x xs IH]; intros a; [reflexivity|].
  cbn [app reduce]. destruct (f a x) as [a'|e]; [apply IH | reflexivity].
Qed.

Lemma reduce_not_dict (v : value) (keys : list string) :
  keys <> [] -> is_dict v = false ->
  reduce (fun prev cur => subscript prev cur) keys v
  = Raise (TypeError (subscript_error v)).
Proof.
  intros Hne Hv. destruct keys as [|key keys]; [congruence|].
  cbn [reduce]. now rewrite subscript_not_dict.
Qed.

Lemma split_nonempty (path : string) : Re.split DELIMITER_PATTERN path <> [].
Proof. rewrite split_segments. apply segments_by_nonempty. Qed.

Lemma getitem_after (d : gmap string value) (p q : string) :
  starts_with_indicator q = false ->
  __getitem__ {| _value := VDict d |} (extend p q)
  = match __getitem__ {| _value := VDict d |} p with
    | Raise e => Raise e
    | Ok (VDict d') => __getitem__ {| _value := VDict d' |} q
    | Ok v => Raise (TypeError (subscript_error v))
    end.
Proof.
  intros Hq. unfold __getitem__. cbn [_value].
  rewrite !split_segments, segments_extend, reduce_app by exact Hq.
  destruct (reduce _ (segments p) (VDict d)) as [v|e]; [|reflexivity].
  unfold mbind, result_bind. cbv beta iota.
  destruct v; try reflexivity;
    now rewrite reduce_not_dict by (apply segments_by_nonempty || reflexivity).
Qed.

(** X5: going on with [q] after [p] on a mapping.  An exception of
    the lookup of [p] is the exception of the longer path; when [p]
    reaches a mapping, the longer path gives what [q] gives on that
    mapping, as chained subscriptions would; when [p] reaches any
    other value, the longer path raises the [TypeError] of indexing
    that value. *)
Theorem getitem_extend (d : gmap string value) (p q : string) :
  starts_with_indicator q = false ->
  __getitem__ {| _value := VDict d |} (extend p q)
  = match __getitem__ {| _value := VDict d |} p with
    | Raise e => Raise e
    | Ok (VDict d') => __getitem__ {| _value := VDict d' |} q
    | Ok v => Raise (TypeError (subscript_error v))
    end.
Proof. apply getitem_after. Qed.

Lemma getitem_extend_witness :
  __getitem__ doc_test (extend "test\goes" "deep") = Ok (VInt 19)
  /\ __getitem__ doc_test (extend "test\or" "deep")
     = Raise (TypeError (NotSubscriptable py_int)).
Proof.
  split.
  - exact (getitem_extend _ "test\goes" "deep" eq_refl).
  - exact (getitem_extend _ "test\or" "deep" eq_refl).
Defined.

(** X6: a path without backslash is one key: on a mapping
    [__getitem__] is the plain subscription with that key, the empty
    path being the empty key, and [has] tells whether the key is in
    the mapping. *)
Theorem getitem_single_key (d : gmap string value) (path : string) :
  occurs backslash path = false ->
  __getitem__ {| _value := VDict d |} path
  = match d !! path with
    | Some v => Ok v
    | None => Raise (KeyError path)
    end
  /\ has {| _value := VDict d |} path
     = Ok (match d !! path with Some _ => true | None => false end).
Proof.
  intros Hpath.
  assert (Hget : __getitem__ {| _value := VDict d |} path
                 = match d !! path with
                   | Some v => Ok v
                   | None => Raise (KeyError path)
                   end).
  { unfold __getitem__. cbn [_value].
    rewrite split_segments, segments_no_delimiter by exact Hpath.
    cbn [reduce subscript]. destruct (d !! path); reflexivity. }
  split; [exact Hget|].
  unfold has. rewrite Hget. destruct (d !! path); reflexivity.
Qed.

Lemma getitem_single_key_witness :
  __getitem__ doc_a_1 EmptyString = Raise (KeyError EmptyString)
  /\ has doc_a_1 EmptyString = Ok false.
Proof. exact (getitem_single_key {[ "a" := VInt 1 ]} EmptyString eq_refl). Defined.

(** A traversal ends at a missing key exactly when the keys before
    it lead to a mapping that lacks it. *)
Lemma traverse_absent_split (v : value) (keys : list string) (key : string) :
  traverse v keys (Absent key) ->
  exists before after d',
    keys = before ++ key :: after
    /\ traverse v before (Reached (VDict d'))
    /\ d' !! key = None.
Proof.
  remember (Absent key) as o eqn:Ho.
  induction 1 as [v | d k keys v o Hk _ IH | d k keys Hk | v k keys Hv];
    try discriminate.
  - destruct (IH Ho) as (before & after & d' & -> & Hbefore & Hnone).
    exists (k :: before), after, d'. split; [reflexivity|]. split; [|exact Hnone].
    eapply traverse_step; eauto.
  - injection Ho as ->. exists [], keys, d. repeat split; [constructor | exact Hk].
Qed.

Lemma traverse_absent_build (before after : list string) (key : string)
    (d' : gmap string value) :
  forall v : value,
    traverse v before (Reached (VDict d')) ->
    d' !! key = None ->
    traverse v (before ++ key :: after) (Absent key).
Proof.
  induction before as [|k before IH]; intros v Hbefore Hnone.
  - inversion Hbefore; subst. now apply traverse_absent.
  - inversion Hbefore; subst. eapply traverse_step; eauto.
Qed.

(** X7: [__getitem__] raises the [KeyError] of a key exactly when the
    key is a segment of the path and the segments before it resolve,
    one after the other, to a mapping that lacks the key: the error
    carries the first segment that is missing. *)
Theorem getitem_key_error_segment (self : JSNOT) (path key : string) :
  __getitem__ self path = Raise (KeyError key)
  <-> exists before after d',
        Re.split DELIMITER_PATTERN path = before ++ key :: after
        /\ traverse (_value self) before (Reached (VDict d'))
        /\ d' !! key = None.
Proof.
  unfold __getitem__. split.
  - destruct (_value self) as [| | | | | |d]; try discriminate.
    destruct (traverse_total (Re.split DELIMITER_PATTERN path) (VDict d))
      as [o Ho].
    rewrite (reduce_traverse _ _ _ Ho).
    destruct o as [v|k|v]; cbn [result_of]; intros [= <-].
    now apply traverse_absent_split.
  - intros (before & after & d' & Hsplit & Hbefore & Hnone).
    pose proof (traverse_absent_build before after key d' _ Hbefore Hnone)
      as Habsent.
    rewrite <- Hsplit in Habsent.
    destruct (_value self) as [| | | | | |d];
      try (inversion Hbefore; subst; discriminate).
    now rewrite (reduce_traverse _ _ _ Habsent).
Qed.

Lemma getitem_key_error_segment_witness :
  exists before after d',
    Re.split DELIMITER_PATTERN "test\goes\nomatch\deep"
    = before ++ "nomatch" :: after
    /\ traverse (_value doc_test) before (Reached (VDict d'))
    /\ d' !! "nomatch" = None.
Proof.
  apply (proj1 (getitem_key_error_segment doc_test
                  "test\goes\nomatch\deep" "nomatch")).
  reflexivity.
Defined.

(** X8: the path made by joining keys that are not empty and hold no
    backslash gives what indexing with those keys one after the other
    gives: the value reached, the [KeyError] of the first key that is
    missing, or the [TypeError] of indexing a value that is no
    mapping. *)
Theorem getitem_join_plain_keys (d : gmap string value) (keys : list string)
    (o : outcome) :
  keys <> [] ->
  Forall (fun key => plain_key key = true) keys ->
  traverse (VDict d) keys o ->
  __getitem__ {| _value := VDict d |} (join keys) = result_of o.
Proof.
  intros Hne Hall Ho. apply getitem_mapping.
  now rewrite split_segments, segments_join.
Qed.

Lemma getitem_join_plain_keys_witness :
  __getitem__ doc_test (join ["test"; "goes"; "deep"]) = Ok (VInt 19).
Proof.
  apply (getitem_join_plain_keys _ ["test"; "goes"; "deep"] (Reached (VInt 19))).
  - discriminate.
  - repeat constructor.
  - eapply traverse_step; [reflexivity|].
    eapply traverse_step; [reflexivity|].
    eapply traverse_step; [reflexivity|].
    apply traverse_done.
Defined.

(** X9: on the empty mapping every path is absent: [__getitem__]
    raises the [KeyError] of the first segment, [has] returns false
    and [get] returns the default. *)
Theorem empty_mapping_has_nothing (json_loads : string -> decoded)
    {D : Type} (path : string) (default : D) :
  (exists key, hd_error (Re.split DELIMITER_PATTERN path) = Some key
               /\ __getitem__ {| _value := VDict ∅ |} path = Raise (KeyError key))
  /\ has {| _value := VDict ∅ |} path = Ok false
  /\ get json_loads {| _value := VDict ∅ |} path default = Ok (inr default).
Proof.
  assert (Hget : exists key,
             hd_error (Re.split DELIMITER_PATTERN path) = Some key
             /\ __getitem__ {| _value := VDict ∅ |} path = Raise (KeyError key)).
  { unfold __getitem__. cbn [_value].
    destruct (Re.split DELIMITER_PATTERN path) as [|key keys] eqn:Hsplit.
    - now destruct (split_nonempty path).
    - exists key. split; [reflexivity|].
      cbn [reduce subscript]. now rewrite lookup_empty. }
  destruct Hget as (key & Hhd & Hget).
  split; [eauto|]. split.
  - now rewrite has_cases, Hget.
  - now rewrite get_cases, at_path_cases, Hget.
Qed.

Section AccessorsTogether.

Variable json_loads : string -> decoded.

(** X10: [has] and [get] on the same path.  [has] returns false
    exactly when [get] returns the default; whenever [get] returns a
    [JSNOT], [has] returns true; and an exception that leaves [has]
    leaves [get] too. *)
Theorem has_get_agree {D : Type} (self : JSNOT) (path : string) (default : D) :
  (has self path = Ok false
   <-> get json_loads self path default = Ok (inr default))
  /\ (forall j, get json_loads self path default = Ok (inl j) ->
                has self path = Ok true)
  /\ (forall e, has self path = Raise e ->
                get json_loads self path default = Raise e).
Proof.
  rewrite has_cases, get_cases, at_path_cases.
  destruct (__getitem__ self path) as [raw|e0] eqn:Hget.
  - split; [|split; [reflexivity | discriminate]].
    split; [discriminate|].
    destruct raw; try discriminate.
    destruct (json_loads s) as [v|why]; [discriminate|].
    now rewrite raised_not_lookup.
  - destruct (is_LookupError e0); repeat split; try discriminate.
    now intros e [= <-].
Qed.


(** X12: a wrapped value that is no mapping has every path: [has]
    returns true and [get] never returns the default; when the value
    is no string either, [at_path] returns a [JSNOT] equal to the one
    it was called on. *)
Theorem not_mapping_has_every_path {D : Type} (self : JSNOT) (path : string)
    (default : D) :
  is_dict (_value self) = false ->
  has self path = Ok true
  /\ get json_loads self path default <> Ok (inr default)
  /\ ((forall s, _value self <> VStr s) ->
      at_path json_loads self path = Ok self).
Proof.
  intros Hself.
  assert (Hget : __getitem__ self path = Ok (_value self)).
  { unfold __getitem__. destruct (_value self); (discriminate || reflexivity). }
  rewrite has_cases, get_cases, at_path_cases, Hget.
  destruct self as [v]. cbn [_value] in *.
  split; [reflexivity|]. split.
  - destruct v; try discriminate.
    destruct (json_loads s) as [w|why]; [discriminate|].
    now rewrite raised_not_lookup.
  - intros Hstr. destruct v; try reflexivity. now destruct (Hstr s).
Qed.

(** X13: [at_path] twice.  When the raw lookup of [p] on a mapping
    reaches a mapping and [q] starts with none of the nine escape
    indicators, [at_path(p).at_path(q)] is [at_path] of the path [p],
    delimiter, [q]. *)
Theorem at_path_extend (d d' : gmap string value) (p q : string) :
  starts_with_indicator q = false ->
  __getitem__ {| _value := VDict d |} p = Ok (VDict d') ->
  (j ← at_path json_loads {| _value := VDict d |} p; at_path json_loads j q)
  = at_path json_loads {| _value := VDict d |} (extend p q).
Proof.
  intros Hq Hp.
  rewrite (at_path_cases json_loads _ (extend p q)), getitem_after by exact Hq.
  rewrite (at_path_cases json_loads _ p), Hp.
  unfold mbind, result_bind. cbv beta iota.
  apply at_path_cases.
Qed.

End AccessorsTogether.

Lemma not_mapping_has_every_path_witness :
  has {| _value := VList [VInt 1] |} "a\b" = Ok true
  /\ get json_scalar {| _value := VList [VInt 1] |} "a\b" (-1)%Z
     <> Ok (inr (-1)%Z).
Proof.
  destruct (not_mapping_has_every_path json_scalar
              {| _value := VList [VInt 1] |} "a\b" (-1)%Z eq_refl)
    as (Hhas & Hget & _).
  split; [exact Hhas | exact Hget].
Defined.

Lemma at_path_extend_witness :
  (j ← at_path json_scalar doc_test "test\goes"; at_path json_scalar j "deep")
  = at_path json_scalar doc_test (extend "test\goes" "deep").
Proof.
  exact (at_path_extend json_scalar
           {[ "test" := VDict (<[ "or" := VInt 20 ]>
                                 {[ "goes" := VDict {[ "deep" := VInt 19 ]} ]}) ]}
           {[ "deep" := VInt 19 ]}
           "test\goes" "deep" eq_refl eq_refl).
Defined.

(** X14: [satisfy] twice and [satisfy] with a tuple.  The chain
    [satisfy(k1).satisfy(k2)] returns the object exactly when the
    value is an instance of both, and otherwise raises the
    [TypeError] of the first kind that is not met; [satisfy((k1, k2))]
    returns the object exactly when the value is an instance of one
    of the two. *)
Theorem satisfy_chain_and_tuple (self : JSNOT) (k1 k2 : classinfo) :
  (j ← satisfy self k1; satisfy j k2)
  = (if isinstance (_value self) k1
     then if isinstance (_value self) k2
          then Ok self
          else Raise (TypeError (Expected k2))
     else Raise (TypeError (Expected k1)))
  /\ (satisfy self (Tuple [k1; k2]) = Ok self
      <-> satisfy self k1 = Ok self \/ satisfy self k2 = Ok self).
Proof.
  unfold satisfy. cbn [isinstance existsb].
  destruct (isinstance (_value self) k1) eqn:H1,
           (isinstance (_value self) k2) eqn:H2;
    unfold mbind, result_bind; cbn [negb orb]; rewrite ?H2; cbn [negb];
    (split; [reflexivity|]);
    (split; [intros H; (discriminate H || eauto)
            | intros [H|H]; (discriminate H || reflexivity)]).
Qed.
